(** * Comment removal and lower-casing of dependency manifests

    A shallow embedding of [cli/src/semdep/parsers/preprocessors.py]:
    the classes [CommentRemover] and [CombinedPreprocessor].

    The Python module delegates all of its work to the standard [re]
    library ([re.compile], [Pattern.groups], [Pattern.sub]).  The part of
    that library which the module exercises is modelled in [Module Sre]:
    a backtracking matcher over parsed patterns, in the style of the
    [sre] engine, for the pattern constructs that occur in the default
    regular expression [(^|\s+)#.*($)] compiled with [re.MULTILINE]. *)

From Stdlib Require Import String Ascii DecimalString.
From Stdlib Require Import NArith Bool Lia PeanoNat Arith List.
Import ListNotations.
Open Scope string_scope.
Open Scope list_scope.

Set Implicit Arguments.

(** ** Text

    A Python [str] is a sequence of Unicode code points. *)

Definition char := N.
Definition text := list char.

(** Code points of an ASCII literal. *)
Definition str (s : string) : text :=
  map N_of_ascii (list_ascii_of_string s).

(** The line terminator ['\n'] and the comment marker ['#']. *)
Definition LF : char := 10%N.
Definition HASH : char := 35%N.

(** Number of line terminators of a text ([target.count("\n")]). *)
Definition count_lines (t : text) : nat := count_occ N.eq_dec t LF.

(** ** Exceptions and results *)

Inductive exn : Type :=
| ValueError (msg : string)
| re_error (msg : string).

Inductive result (A : Type) : Type :=
| Ok (a : A)
| Raise (e : exn).

Arguments Ok {A} a.
Arguments Raise {A} e.

Definition bind {A B : Type} (m : result A) (f : A -> result B) : result B :=
  match m with
  | Ok a => f a
  | Raise e => Raise e
  end.

Notation "x <- m ;; k" := (bind m (fun x => k))
  (at level 61, m at next level, right associativity).

(** ** The fragment of the [re] library used by the module *)

Module Sre.

(** Single-character pattern items. *)
Inductive item : Type :=
| LITERAL (c : char)      (* an ordinary character *)
| ANY                     (* [.] without DOTALL: anything but a line feed *)
| CATEGORY_SPACE.         (* [\s] in a str pattern: Unicode white space *)

(** Parsed patterns.  Capture groups are numbered from 1 in the order
    of their opening parentheses, as [re] numbers them. *)
Inductive regex : Type :=
| EMPTY
| ITEM (i : item)
| AT_BEGINNING_LINE                       (* [^] under MULTILINE *)
| AT_END_LINE                             (* [$] under MULTILINE *)
| SEQ (r1 r2 : regex)
| BRANCH (r1 r2 : regex)                  (* [r1|r2] *)
| MAX_REPEAT (lo : nat) (i : item)        (* greedy [i{lo,}]: [*] is 0, [+] is 1 *)
| SUBPATTERN (r : regex).                 (* a capture group [(r)] *)

(** [str.isspace] on one code point, which is what [\s] tests. *)
Definition isspace (c : char) : bool :=
  ((9 <=? c) && (c <=? 13) || (28 <=? c) && (c <=? 32)
   || (c =? 133) || (c =? 160) || (c =? 5760)
   || (8192 <=? c) && (c <=? 8202)
   || (c =? 8232) || (c =? 8233) || (c =? 8239) || (c =? 8287)
   || (c =? 12288))%N.

Definition item_match (i : item) (c : char) : bool :=
  match i with
  | LITERAL d => (c =? d)%N
  | ANY => negb (c =? LF)%N
  | CATEGORY_SPACE => isspace c
  end.

(** [Pattern.groups]: the number of capture groups. *)
Fixpoint groups (r : regex) : nat :=
  match r with
  | SEQ r1 r2 | BRANCH r1 r2 => groups r1 + groups r2
  | SUBPATTERN r1 => S (groups r1)
  | _ => 0
  end.

(** The matcher's state: the character before the current position
    ([None] at the start of the subject), the rest of the subject, and
    the text captured by each group that has closed so far. *)
Record state : Type := mkState {
  prev : option char;
  rest : text;
  marks : list (nat * text)
}.

Definition at_beginning_line (st : state) : bool :=
  match prev st with
  | None => true
  | Some c => (c =? LF)%N
  end.

Definition at_end_line (st : state) : bool :=
  match rest st with
  | [] => true
  | c :: _ => (c =? LF)%N
  end.

(** The text between two positions of one attempt. *)
Definition consumed (st st' : state) : text :=
  firstn (length (rest st) - length (rest st')) (rest st).

Definition set_mark (g : nat) (t : text) (st : state) : state :=
  mkState (prev st) (rest st) ((g, t) :: marks st).

(** [Match.group(g)] as the replacement template reads it: a group that
    did not take part in the match contributes the empty string. *)
Fixpoint group (g : nat) (ms : list (nat * text)) : text :=
  match ms with
  | [] => []
  | (h, t) :: tl => if Nat.eqb h g then t else group g tl
  end.

(** Greedy repetition of a single-character item: take as many
    characters as match, then give them back one by one until the
    continuation [k] accepts, never going below [lo]. *)
Fixpoint repeat_one (i : item) (lo : nat) (p : option char) (s : text)
    (ms : list (nat * text)) (k : state -> option state) : option state :=
  let stop := if Nat.eqb lo 0 then k (mkState p s ms) else None in
  match s with
  | c :: tl =>
      if item_match i c then
        match repeat_one i (pred lo) (Some c) tl ms k with
        | Some r => Some r
        | None => stop
        end
      else stop
  | [] => stop
  end.

(** The backtracking matcher, in continuation-passing style: [k] is
    the rest of the pattern.  [base] is the number of groups opened to
    the left of [r]. *)
Fixpoint sre_match (r : regex) (base : nat) (st : state)
    (k : state -> option state) : option state :=
  match r with
  | EMPTY => k st
  | ITEM i =>
      match rest st with
      | c :: tl =>
          if item_match i c then k (mkState (Some c) tl (marks st)) else None
      | [] => None
      end
  | AT_BEGINNING_LINE => if at_beginning_line st then k st else None
  | AT_END_LINE => if at_end_line st then k st else None
  | SEQ r1 r2 =>
      sre_match r1 base st (fun st' => sre_match r2 (base + groups r1) st' k)
  | BRANCH r1 r2 =>
      match sre_match r1 base st k with
      | Some r => Some r
      | None => sre_match r2 (base + groups r1) st k
      end
  | MAX_REPEAT lo i => repeat_one i lo (prev st) (rest st) (marks st) k
  | SUBPATTERN r1 =>
      sre_match r1 (S base) st
        (fun st' => k (set_mark (S base) (consumed st st') st'))
  end.

(** One attempt at one position.  With [must_advance] an empty match
    is refused (the search resumes there after an empty match). *)
Definition attempt (r : regex) (p : option char) (s : text)
    (must_advance : bool) : option state :=
  sre_match r 0 (mkState p s [])
    (fun st' =>
       if must_advance && Nat.eqb (length (rest st')) (length s)
       then None else Some st').

(** Length of the match an attempt found. *)
Definition span (s : text) (st : state) : nat :=
  length s - length (rest st).

(** Replacement templates: literal text and group references. *)
Inductive template_item : Type :=
| T_LITERAL (t : text)
| T_GROUP (g : nat).

Definition template := list template_item.

Definition expand_item (ms : list (nat * text)) (it : template_item) : text :=
  match it with
  | T_LITERAL t => t
  | T_GROUP g => group g ms
  end.

Definition expand (tpl : template) (st : state) : text :=
  flat_map (expand_item (marks st)) tpl.

(** A template may only refer to groups the pattern has. *)
Definition valid_ref (n : nat) (it : template_item) : bool :=
  match it with
  | T_LITERAL _ => true
  | T_GROUP g => Nat.leb g n
  end.

(** [Pattern.sub] on a subject: replace the leftmost non-overlapping
    matches.  [skip] counts the characters of the subject that still
    belong to the match found last; at every other position the pattern
    is tried, a failed attempt copies one character, and an empty match
    is followed by a second attempt that has to advance. *)
Fixpoint subx (r : regex) (tpl : template) (p : option char) (s : text)
    (skip : nat) : text :=
  match skip with
  | S n =>
      match s with
      | [] => []
      | c :: tl => subx r tpl (Some c) tl n
      end
  | O =>
      let copy :=
        match s with
        | [] => []
        | c :: tl => c :: subx r tpl (Some c) tl 0
        end in
      let resume (n : nat) :=
        match s with
        | [] => []
        | c :: tl => subx r tpl (Some c) tl (pred n)
        end in
      match attempt r p s false with
      | None => copy
      | Some st =>
          expand tpl st ++
          match span s st with
          | S n => resume (S n)
          | O =>
              match attempt r p s true with
              | None => copy
              | Some st2 => expand tpl st2 ++ resume (span s st2)
              end
          end
      end
  end.

(** A compiled pattern object: the source text it was compiled from,
    its parsed form, and what [repr] prints for it. *)
Record Pattern : Type := mkPattern {
  pattern_source : string;
  code : regex;
  pattern_repr : string
}.

Definition Pattern_groups (p : Pattern) : nat := groups (code p).

(** [Pattern.sub(repl, string)]: the template is checked against the
    pattern's groups before any matching takes place. *)
Definition Pattern_sub (p : Pattern) (tpl : template) (s : text)
  : result text :=
  if forallb (valid_ref (Pattern_groups p)) tpl
  then Ok (subx (code p) tpl None s 0)
  else Raise (re_error "invalid group reference").

End Sre.

Import Sre.

(** ** [preprocessors.py] *)

(** The default value of [regex], compiled with [re.MULTILINE]:
    group 1 is [(^|\s+)], then the marker [#], then [.*], and group 2
    is [($)]. *)
Definition default_regex : string := "(^|\s+)#.*($)".

Definition default_code : regex :=
  SEQ (SUBPATTERN (BRANCH AT_BEGINNING_LINE (MAX_REPEAT 1 CATEGORY_SPACE)))
      (SEQ (ITEM (LITERAL HASH))
           (SEQ (MAX_REPEAT 0 ANY)
                (SUBPATTERN AT_END_LINE))).

Definition default_pattern : Pattern :=
  mkPattern default_regex default_code
    "re.compile('(^|\\s+)#.*($)', re.MULTILINE)".

(** The replacement [r"\1\2"]. *)
Definition keep_both_groups : template := [T_GROUP 1; T_GROUP 2].

(** [f"{n}"] for a natural number. *)
Definition format_nat (n : nat) : string :=
  NilEmpty.string_of_uint (Nat.to_uint n).

Definition contract_message : string :=
  "A comment remover regex pattern must have exactly two capture groups. "
  ++ "Group 1 is text before comment to keep, group 2 is text after comment to keep. "
  ++ "This helps us keep accurate line numbers for matches after preprocessing. ".

Definition groups_message (compiled : Pattern) : string :=
  contract_message
  ++ "Your pattern has " ++ format_nat (Pattern_groups compiled)
  ++ " instead of 2 groups and looks like " ++ pattern_repr compiled.

(** [class CommentRemover] *)
Record CommentRemover : Type := mkCommentRemover {
  pattern : Pattern
}.

(** [CommentRemover.__init__].  [compiled] is the value of
    [re.compile(regex, re.MULTILINE)]; parsing the pattern text is the
    library's business and happens before the method's own check. *)
Definition CommentRemover__init__ (compiled : Pattern) : result CommentRemover :=
  if negb (Nat.eqb (Pattern_groups compiled) 2)
  then Raise (ValueError (groups_message compiled))
  else Ok (mkCommentRemover compiled).

(** [CommentRemover.__call__] *)
Definition CommentRemover__call__ (self : CommentRemover) (target : text)
  : result text :=
  Pattern_sub (pattern self) keep_both_groups target.

(** [class CombinedPreprocessor] *)
Record CombinedPreprocessor : Type := mkCombinedPreprocessor {
  comment_remover : CommentRemover
}.

(** [CombinedPreprocessor.__init__] *)
Definition CombinedPreprocessor__init__ : result CombinedPreprocessor :=
  cr <- CommentRemover__init__ default_pattern ;;
  Ok (mkCombinedPreprocessor cr).

Section Lower.

(** [str.lower], a method of the built-in string type. *)
Variable lower : text -> text.

(** [CombinedPreprocessor.__call__] *)
Definition CombinedPreprocessor__call__ (self : CombinedPreprocessor)
    (target : text) : result text :=
  let lowercase_content := lower target in
  CommentRemover__call__ (comment_remover self) lowercase_content.

(** The two operations the module offers to the manifest parsers:
    [CommentRemover()(text)] and [CombinedPreprocessor()(text)]. *)
Definition normalize (text0 : text) : result text :=
  cp <- CombinedPreprocessor__init__ ;;
  CombinedPreprocessor__call__ cp text0.

End Lower.

Definition strip_comments (text0 : text) : result text :=
  cr <- CommentRemover__init__ default_pattern ;;
  CommentRemover__call__ cr text0.

(** [str.lower] on ASCII text. *)
Definition ascii_lower (c : char) : char :=
  if ((65 <=? c) && (c <=? 90))%N then (c + 32)%N else c.

(** ** A direct description of the default pattern

    Substitution with the default pattern is a two-mode scan: in code
    mode a marker that stands at the start of the text or after a white
    space character opens a comment, and in comment mode everything up
    to the next line feed is dropped.  [subx_default_scan] proves that
    this is what the matcher computes. *)

Inductive mode : Type :=
| Code (boundary : bool)
| Comment.

Fixpoint scan (m : mode) (s : text) : text :=
  match s with
  | [] => []
  | c :: tl =>
      match m with
      | Comment =>
          if (c =? LF)%N then c :: scan (Code true) tl else scan Comment tl
      | Code b =>
          if b && (c =? HASH)%N then scan Comment tl
          else c :: scan (Code (isspace c)) tl
      end
  end.

(** The leading white space of a text, and what follows it. *)
Fixpoint spaces (s : text) : text :=
  match s with
  | c :: tl => if isspace c then c :: spaces tl else []
  | [] => []
  end.

Fixpoint after_spaces (s : text) : text :=
  match s with
  | c :: tl => if isspace c then after_spaces tl else s
  | [] => []
  end.

(** The rest of the current line, and the text from its line feed on. *)
Fixpoint line (s : text) : text :=
  match s with
  | c :: tl => if (c =? LF)%N then [] else c :: line tl
  | [] => []
  end.

Fixpoint after_line (s : text) : text :=
  match s with
  | c :: tl => if (c =? LF)%N then s else after_line tl
  | [] => []
  end.

(** The character before position [n] of [s], when [p] is the one
    before [s]. *)
Fixpoint prev_at (n : nat) (p : option char) (s : text) : option char :=
  match n, s with
  | S m, c :: tl => prev_at m (Some c) tl
  | _, _ => p
  end.

(** What the scan knows of the character before the position. *)
Definition boundary_of (p : option char) : bool :=
  match p with
  | None => true
  | Some c => isspace c
  end.

(** [sub] is a subsequence of [s]. *)
Inductive Subseq : text -> text -> Prop :=
| Subseq_nil : Subseq [] []
| Subseq_keep c sub s : Subseq sub s -> Subseq (c :: sub) (c :: s)
| Subseq_drop c sub s : Subseq sub s -> Subseq sub (c :: s).

(** The position is at the start of a line. *)
Definition boundary_line (p : option char) : bool :=
  match p with
  | None => true
  | Some c => (c =? LF)%N
  end.

(** What one attempt with the default pattern finds at a position. *)
Definition comment_at (w : text) (h : char) (x : text) : state :=
  mkState (prev_at (length (line x)) (Some h) x) (after_line x)
    [(2, []); (1, w)].

Definition default_attempt (p : option char) (s : text) : option state :=
  match s with
  | c :: tl =>
      if boundary_line p && (c =? HASH)%N then Some (comment_at [] c tl)
      else if isspace c then
        match after_spaces s with
        | h :: x => if (h =? HASH)%N then Some (comment_at (spaces s) h x) else None
        | [] => None
        end
      else None
  | [] => None
  end.

(** A text given line by line, every line with its line feed. *)
Definition unlines (ls : list string) : text :=
  flat_map (fun l => str l ++ [LF]) ls.

(** [needle] occurs in [s]. *)
Definition occurs_in (needle s : string) : Prop :=
  exists a b, s = (a ++ needle ++ b)%string.

(** The reading of "a marker that follows a character which is not white
    space is never removed": the marker and the character before it
    are still found, next to each other, in the output. *)
Definition marker_after_nonspace_kept : Prop :=
  forall (pre : text) (c : char) (post : text),
    isspace c = false ->
    exists o1 o2,
      strip_comments (pre ++ c :: HASH :: post) = Ok (o1 ++ c :: HASH :: o2).

(** Compiled patterns with no, one, two and three capture groups:
    [a], [(a)], [(a)(b)] and [(a)(b)(c)]. *)
Definition lit (s : string) : regex :=
  match str s with
  | c :: _ => ITEM (LITERAL c)
  | [] => EMPTY
  end.

Definition pattern_0 : Pattern :=
  mkPattern "a" (lit "a") "re.compile('a', re.MULTILINE)".

Definition pattern_1 : Pattern :=
  mkPattern "(a)" (SUBPATTERN (lit "a")) "re.compile('(a)', re.MULTILINE)".

Definition pattern_2 : Pattern :=
  mkPattern "(a)(b)" (SEQ (SUBPATTERN (lit "a")) (SUBPATTERN (lit "b")))
    "re.compile('(a)(b)', re.MULTILINE)".

Definition pattern_3 : Pattern :=
  mkPattern "(a)(b)(c)"
    (SEQ (SUBPATTERN (lit "a")) (SEQ (SUBPATTERN (lit "b")) (SUBPATTERN (lit "c"))))
    "re.compile('(a)(b)(c)', re.MULTILINE)".

(** ** Notions used by the further properties *)

(** [sep.join(ls)] with the line feed as separator. *)
Fixpoint join_lines (ls : list text) : text :=
  match ls with
  | [] => []
  | [l] => l
  | l :: tl => l ++ LF :: join_lines tl
  end.

(** A text without a line feed: one line. *)
Definition one_line (l : text) : Prop := ~ In LF l.

(** [p] is what [l] begins with. *)
Definition prefix_of (p l : text) : Prop := exists dropped, l = p ++ dropped.

(** Every marker of the text directly follows a character that is not
    white space: no marker stands at the start of the text, after a
    line feed or after any other white space. *)
Definition markers_follow_nonspace (t : text) : Prop :=
  forall a x, t = a ++ HASH :: x ->
    exists a' c, a = a' ++ [c] /\ isspace c = false.

(** Whether the position behind [a] is a boundary, when [b] tells it
    for the position before [a]. *)
Fixpoint boundary_after (b : bool) (a : text) : bool :=
  match a with
  | [] => b
  | c :: tl => boundary_after (isspace c) tl
  end.

(** No marker of [s] stands at a boundary. *)
Fixpoint comment_free (b : bool) (s : text) : bool :=
  match s with
  | [] => true
  | c :: tl => negb (b && (c =? HASH)%N) && comment_free (isspace c) tl
  end.

(** A character map that leaves the marker, the line feed and the
    white space class alone, as lower-casing does. *)
Definition class_preserving (f : char -> char) : Prop :=
  forall c,
    (f c =? HASH)%N = (c =? HASH)%N
    /\ (f c =? LF)%N = (c =? LF)%N
    /\ isspace (f c) = isspace c.

(** The position behind [pre] is the start of a line. *)
Definition line_start (pre : text) : Prop :=
  pre = [] \/ exists pre', pre = pre' ++ [LF].

(** The positions of a subject at which the pattern is tried when it
    matches nowhere: every suffix, with the character before it. *)
Definition no_match_anywhere (r : regex) (p : option char) (s : text) : Prop :=
  forall n, n <= length s ->
    attempt r (prev_at n p s) (skipn n s) false = None.

(** * Properties *)

(** ** Texts *)

Lemma string_append_assoc (a b c : string) :
  ((a ++ b) ++ c = a ++ (b ++ c))%string.
Proof.
  induction a as [|x a IH]; simpl; [reflexivity | f_equal; exact IH].
Qed.

Lemma string_append_nil_r (a : string) : (a ++ "")%string = a.
Proof.
  induction a as [|x a IH]; simpl; [reflexivity | f_equal; exact IH].
Qed.

Lemma spaces_after_spaces (s : text) : s = spaces s ++ after_spaces s.
Proof.
  induction s as [|c tl IH]; simpl; [reflexivity|].
  destruct (isspace c); simpl; [f_equal; exact IH | reflexivity].
Qed.

Lemma line_after_line (s : text) : s = line s ++ after_line s.
Proof.
  induction s as [|c tl IH]; simpl; [reflexivity|].
  destruct (c =? LF)%N; simpl; [reflexivity | f_equal; exact IH].
Qed.

Lemma spaces_all (s : text) : forallb isspace (spaces s) = true.
Proof.
  induction s as [|c tl IH]; simpl; [reflexivity|].
  destruct (isspace c) eqn:E; simpl; [rewrite E; exact IH | reflexivity].
Qed.

Lemma line_no_LF (s : text) : forallb (fun c => negb (c =? LF)%N) (line s) = true.
Proof.
  induction s as [|c tl IH]; simpl; [reflexivity|].
  destruct (c =? LF)%N eqn:E; simpl; [reflexivity | rewrite E; exact IH].
Qed.

Lemma isspace_not_HASH (c : char) : isspace c = true -> (c =? HASH)%N = false.
Proof.
  intros H. apply N.eqb_neq. intros ->. discriminate H.
Qed.

Lemma skipn_exact (a b : text) : skipn (length a) (a ++ b) = b.
Proof.
  induction a as [|x a IH]; simpl; [reflexivity | exact IH].
Qed.

Lemma length_after_line (s : text) : length (after_line s) <= length s.
Proof.
  rewrite (line_after_line s) at 2. rewrite length_app. lia.
Qed.

Lemma length_after_spaces (s : text) : length (after_spaces s) <= length s.
Proof.
  rewrite (spaces_after_spaces s) at 2. rewrite length_app. lia.
Qed.

(** ** The matcher on the default pattern *)

(** [.*] followed by a test for the end of the line stops at the end
    of the line. *)
Lemma repeat_any_to_eol (k : state -> option state) :
  (forall st, at_end_line st = false -> k st = None) ->
  forall s p ms,
    repeat_one ANY 0 p s ms k
    = k (mkState (prev_at (length (line s)) p s) (after_line s) ms).
Proof.
  intros Hk s. induction s as [|c tl IH]; intros p ms; simpl.
  - reflexivity.
  - destruct (c =? LF)%N eqn:E; simpl; [reflexivity|].
    rewrite IH.
    destruct (k _) eqn:Ek; [reflexivity|].
    apply Hk. simpl. exact E.
Qed.

(** [\s+] followed by something that fails on white space takes the
    whole run of white space or fails. *)
Lemma repeat_space_run (k : state -> option state) :
  (forall p c tl ms, isspace c = true -> k (mkState p (c :: tl) ms) = None) ->
  forall s lo p ms,
    repeat_one CATEGORY_SPACE lo p s ms k
    = if Nat.leb lo (length (spaces s))
      then k (mkState (prev_at (length (spaces s)) p s) (after_spaces s) ms)
      else None.
Proof.
  intros Hk s. induction s as [|c tl IH]; intros lo p ms; simpl.
  - destruct lo; reflexivity.
  - destruct (isspace c) eqn:E; simpl.
    + rewrite IH.
      destruct lo as [|lo]; simpl.
      * destruct (k _); [reflexivity|]. apply Hk; exact E.
      * destruct (Nat.leb lo (length (spaces tl))); [|reflexivity].
        destruct (k _); reflexivity.
    + destruct lo; reflexivity.
Qed.

Lemma at_end_line_after_line (p : option char) (s : text) (ms : list (nat * text)) :
  at_end_line (mkState p (after_line s) ms) = true.
Proof.
  unfold at_end_line; simpl.
  induction s as [|c tl IH]; simpl; [reflexivity|].
  destruct (c =? LF)%N eqn:E; [simpl; exact E | exact IH].
Qed.

Lemma firstn_spaces (s : text) :
  firstn (length s - length (after_spaces s)) s = spaces s.
Proof.
  rewrite (spaces_after_spaces s) at 1 3.
  rewrite length_app, Nat.add_sub.
  rewrite firstn_app, Nat.sub_diag, firstn_all. simpl. apply app_nil_r.
Qed.

(** The tail of the default pattern, [.*($)], once the marker has
    been read: it runs to the end of the line and cannot fail. *)
Lemma comment_body (ma : bool) (n : nat) (h : char) (x : text)
    (ms : list (nat * text)) :
  length x < n ->
  repeat_one ANY 0 (Some h) x ms
    (fun st' =>
       if at_end_line st'
       then if ma && Nat.eqb (length (rest st')) n then None
            else Some (set_mark 2 (consumed st' st') st')
       else None)
  = Some (mkState (prev_at (length (line x)) (Some h) x) (after_line x)
            ((2, []) :: ms)).
Proof.
  intros Hn.
  rewrite repeat_any_to_eol by (intros st ->; reflexivity).
  rewrite at_end_line_after_line. cbn [rest].
  pose proof (length_after_line x) as Hl.
  replace (Nat.eqb (length (after_line x)) n) with false
    by (symmetry; apply Nat.eqb_neq; lia).
  rewrite andb_false_r.
  unfold set_mark, consumed. cbn [prev rest marks].
  rewrite Nat.sub_diag. reflexivity.
Qed.

Lemma attempt_default (p : option char) (s : text) (ma : bool) :
  attempt default_code p s ma = default_attempt p s.
Proof.
  unfold attempt, default_code. cbn [sre_match groups Nat.add].
  unfold at_beginning_line. cbn [prev rest marks set_mark].
  rewrite repeat_space_run
    by (intros p0 c tl ms Hc; cbn [rest item_match];
        rewrite (isspace_not_HASH c Hc); reflexivity).
  cbn [rest marks item_match].
  unfold default_attempt, boundary_line, comment_at.
  destruct s as [|c tl]; [destruct p as [q|]; [destruct (q =? LF)%N|]; reflexivity|].
  assert (Hsp : (c =? HASH)%N = true -> isspace c = false).
  { intros H. apply N.eqb_eq in H. subst c. reflexivity. }
  destruct (c =? HASH)%N eqn:Eh.
  - rewrite comment_body by (simpl; lia).
    unfold consumed; cbn [rest]. rewrite Nat.sub_diag. cbn [firstn].
    cbn [spaces after_spaces]. rewrite (Hsp eq_refl). cbn [length Nat.leb].
    destruct p as [q|]; [destruct (q =? LF)%N|]; reflexivity.
  - rewrite andb_false_r.
    replace (match match p with Some c0 => (c0 =? LF)%N | None => true end
             with true | false => @None state end) with (@None state)
      by (destruct p as [q|]; [destruct (q =? LF)%N|]; reflexivity).
    unfold consumed; cbn [rest]. rewrite firstn_spaces.
    pose proof (length_after_spaces (c :: tl)) as Hl.
    destruct (after_spaces (c :: tl)) as [|h x] eqn:Ea.
    + cbn [spaces]. destruct (isspace c); reflexivity.
    + cbn [spaces] in *. destruct (isspace c) eqn:Ec; [|reflexivity].
      cbn [length Nat.leb].
      destruct (h =? HASH)%N; [|reflexivity].
      rewrite comment_body by (simpl in Hl; simpl; lia).
      reflexivity.
Qed.

(** Every match of the default pattern is some white space, the marker
    and the rest of the line. *)
Lemma default_attempt_shape (p : option char) (s : text) (st : state) :
  default_attempt p s = Some st ->
  exists w x,
    s = w ++ HASH :: x /\ st = comment_at w HASH x
    /\ forallb isspace w = true
    /\ (w = [] -> boundary_line p = true).
Proof.
  unfold default_attempt. destruct s as [|c tl]; [discriminate|].
  destruct (boundary_line p && (c =? HASH)%N) eqn:E.
  - intros [= <-]. apply andb_prop in E as [Hp Hc].
    apply N.eqb_eq in Hc. subst c.
    exists [], tl. repeat split; auto.
  - destruct (isspace c) eqn:Ec; [|discriminate].
    pose proof (spaces_after_spaces (c :: tl)) as Hs.
    destruct (after_spaces (c :: tl)) as [|h x]; [discriminate|].
    destruct (h =? HASH)%N eqn:Eh; [|discriminate].
    intros [= <-]. apply N.eqb_eq in Eh. subst h.
    exists (spaces (c :: tl)), x. repeat split; auto.
    + apply spaces_all.
    + simpl. rewrite Ec. discriminate.
Qed.

Lemma prev_at_app (a : text) (h : char) (b : text) (n : nat) (p : option char) :
  prev_at (length (a ++ [h]) + n) p (a ++ h :: b) = prev_at n (Some h) b.
Proof.
  revert p. induction a as [|c a IH]; intros p; simpl; [reflexivity | apply IH].
Qed.

(** Skipping the characters of a match leads to the position after it. *)
Lemma subx_skip (r : regex) (tpl : template) (s : text) :
  forall n p, n <= length s ->
    subx r tpl p s n = subx r tpl (prev_at n p s) (skipn n s) 0.
Proof.
  induction s as [|c tl IH]; intros n p Hn.
  - simpl in Hn. replace n with 0 by lia. reflexivity.
  - destruct n as [|n].
    + reflexivity.
    + simpl in Hn. cbn [subx prev_at skipn]. apply IH. lia.
Qed.

Lemma comment_at_span (p : option char) (w x : text) :
  span (w ++ HASH :: x) (comment_at w HASH x) = S (length w + length (line x))
  /\ skipn (S (length w + length (line x))) (w ++ HASH :: x)
     = rest (comment_at w HASH x)
  /\ prev_at (S (length w + length (line x))) p (w ++ HASH :: x)
     = prev (comment_at w HASH x).
Proof.
  unfold span, comment_at. cbn [rest prev].
  assert (Hlen : length (w ++ HASH :: x)
                 = S (length w + length (line x)) + length (after_line x)).
  { rewrite (line_after_line x) at 1. rewrite !length_app. simpl.
    rewrite length_app. lia. }
  split; [|split].
  - rewrite Hlen. lia.
  - assert (Hx : w ++ HASH :: x = (w ++ HASH :: line x) ++ after_line x).
    { rewrite <- app_assoc. simpl. rewrite <- line_after_line. reflexivity. }
    rewrite Hx.
    replace (S (length w + length (line x)))
      with (length (w ++ HASH :: line x))
      by (rewrite length_app; simpl; lia).
    apply skipn_exact.
  - replace (S (length w + length (line x)))
      with (length (w ++ [HASH]) + length (line x))
      by (rewrite length_app; simpl; lia).
    apply prev_at_app.
Qed.

Lemma subx_default_unfold (p : option char) (s : text) :
  subx default_code keep_both_groups p s 0
  = match default_attempt p s with
    | Some st =>
        (group 1 (marks st) ++ group 2 (marks st))
        ++ subx default_code keep_both_groups (prev st) (rest st) 0
    | None =>
        match s with
        | [] => []
        | c :: tl => c :: subx default_code keep_both_groups (Some c) tl 0
        end
    end.
Proof.
  destruct s as [|c tl].
  - cbn [subx]. rewrite !attempt_default. reflexivity.
  - cbn [subx]. rewrite !attempt_default.
    destruct (default_attempt p (c :: tl)) as [st|] eqn:Ea; [|reflexivity].
    destruct (default_attempt_shape _ _ Ea) as (w & x & Hs & Hst & _ & _).
    destruct (comment_at_span p w x) as (Hspan & Hskip & Hprev).
    rewrite <- Hs, <- Hst in Hspan, Hskip, Hprev.
    rewrite Hspan. cbn [pred].
    change (subx default_code keep_both_groups (Some c) tl
              (length w + length (line x)))
      with (subx default_code keep_both_groups p (c :: tl)
              (S (length w + length (line x)))).
    rewrite subx_skip by (unfold span in Hspan; lia).
    rewrite Hskip, Hprev.
    unfold expand, keep_both_groups. cbn [flat_map expand_item].
    rewrite app_nil_r. reflexivity.
Qed.

(** ** The scan *)

Lemma scan_code_other (b : bool) (c : char) (tl : text) :
  (c =? HASH)%N = false ->
  scan (Code b) (c :: tl) = c :: scan (Code (isspace c)) tl.
Proof.
  intros H. simpl. rewrite H, andb_false_r. reflexivity.
Qed.

Lemma scan_comment_after_line (b : bool) (s : text) :
  scan Comment s = scan (Code b) (after_line s).
Proof.
  induction s as [|c tl IH]; simpl; [reflexivity|].
  destruct (c =? LF)%N eqn:E; [|exact IH].
  apply N.eqb_eq in E. subst c.
  rewrite scan_code_other by reflexivity. reflexivity.
Qed.

Lemma scan_spaces_marker (w x : text) :
  forallb isspace w = true ->
  forall b, (w = [] -> b = true) ->
    scan (Code b) (w ++ HASH :: x) = w ++ scan Comment x.
Proof.
  induction w as [|c w IH]; intros Hw b Hb.
  - rewrite (Hb eq_refl). reflexivity.
  - simpl in Hw. apply andb_prop in Hw as [Hc Hw].
    cbn [app]. rewrite scan_code_other by (apply isspace_not_HASH; exact Hc).
    rewrite Hc. f_equal. apply IH; auto.
Qed.

(** The matcher and the scan agree, at every position the search can
    reach: a marker that follows white space other than a line feed is
    never the first character of the remaining subject. *)
Lemma subx_default_scan_from (n : nat) :
  forall (s : text) (p : option char),
    length s <= n ->
    (forall x, s = HASH :: x -> boundary_of p = true -> boundary_line p = true) ->
    subx default_code keep_both_groups p s 0 = scan (Code (boundary_of p)) s.
Proof.
  induction n as [|n IH]; intros s p Hn Hreach.
  - destruct s; [|simpl in Hn; lia]. rewrite subx_default_unfold. reflexivity.
  - rewrite subx_default_unfold.
    destruct (default_attempt p s) as [st|] eqn:Ea.
    + destruct (default_attempt_shape _ _ Ea) as (w & x & Hs & Hst & Hw & Hp).
      subst s st. unfold comment_at. cbn [marks group Nat.eqb prev rest].
      rewrite app_nil_r.
      pose proof (length_after_line x) as Hl.
      rewrite IH.
      * rewrite <- scan_comment_after_line.
        symmetry. apply scan_spaces_marker; [exact Hw|].
        intros ->. specialize (Hp eq_refl).
        destruct p as [q|]; [|reflexivity].
        simpl in Hp. apply N.eqb_eq in Hp. subst q. reflexivity.
      * rewrite length_app in Hn. simpl in Hn. lia.
      * intros y Hy. exfalso.
        pose proof (at_end_line_after_line None x []) as He.
        unfold at_end_line in He. cbn [rest] in He. rewrite Hy in He.
        discriminate He.
    + destruct s as [|c tl]; [reflexivity|].
      unfold default_attempt in Ea.
      destruct (c =? HASH)%N eqn:Eh.
      * rewrite andb_true_r in Ea.
        destruct (boundary_line p) eqn:Ep; [discriminate|].
        apply N.eqb_eq in Eh. subst c.
        assert (Hb : boundary_of p = false).
        { destruct (boundary_of p) eqn:Eb; [|reflexivity].
          discriminate (Hreach tl eq_refl eq_refl). }
        rewrite Hb. cbn [scan andb].
        f_equal. apply IH; [simpl in Hn; lia|].
        intros y _ Hy. discriminate Hy.
      * rewrite scan_code_other by exact Eh.
        f_equal. apply IH; [simpl in Hn; lia|].
        intros y -> Hc. exfalso. simpl in Hc.
        rewrite andb_false_r in Ea. cbn [after_spaces] in Ea.
        rewrite Hc in Ea. discriminate Ea.
Qed.

Theorem subx_default_scan (s : text) :
  subx default_code keep_both_groups None s 0 = scan (Code true) s.
Proof.
  apply (subx_default_scan_from (n := length s)); [lia|].
  intros; reflexivity.
Qed.

Lemma scan_count_lines (s : text) :
  forall m, count_lines (scan m s) = count_lines s.
Proof.
  unfold count_lines.
  induction s as [|c tl IH]; intros m; [reflexivity|].
  cbn [scan count_occ]. destruct m as [b|].
  - destruct (b && (c =? HASH)%N) eqn:E.
    + apply andb_prop in E as [_ E]. apply N.eqb_eq in E. subst c.
      destruct (N.eq_dec HASH LF) as [H|_]; [discriminate H | apply IH].
    + cbn [count_occ]. destruct (N.eq_dec c LF); rewrite IH; reflexivity.
  - destruct (c =? LF)%N eqn:E.
    + cbn [count_occ]. destruct (N.eq_dec c LF); rewrite IH; reflexivity.
    + apply N.eqb_neq in E.
      destruct (N.eq_dec c LF) as [H|_]; [contradiction | apply IH].
Qed.

(** Scanning the output of a scan again changes nothing; after a
    comment the output resumes with a line feed, so the mode in which
    the second scan reaches it does not matter. *)
Lemma scan_idempotent (s : text) :
  forall m b',
    scan (match m with Code b => Code b | Comment => Code b' end) (scan m s)
    = scan m s.
Proof.
  induction s as [|c tl IH]; intros m b'; [destruct m; reflexivity|].
  destruct m as [b|].
  - cbn [scan]. destruct (b && (c =? HASH)%N) eqn:E.
    + apply (IH Comment b).
    + cbn [scan]. rewrite E. f_equal. apply (IH (Code (isspace c)) true).
  - cbn [scan]. destruct (c =? LF)%N eqn:E.
    + apply N.eqb_eq in E. subst c.
      rewrite scan_code_other by reflexivity.
      f_equal. apply (IH (Code true) true).
    + apply (IH Comment b').
Qed.

Lemma scan_no_marker (s : text) :
  ~ In HASH s -> forall b, scan (Code b) s = s.
Proof.
  induction s as [|c tl IH]; intros Hs b; [reflexivity|].
  rewrite scan_code_other.
  - f_equal. apply IH. intros H. apply Hs. right. exact H.
  - apply N.eqb_neq. intros ->. apply Hs. left. reflexivity.
Qed.

Lemma scan_subseq (s : text) : forall m, Subseq (scan m s) s.
Proof.
  induction s as [|c tl IH]; intros m; [destruct m; constructor|].
  destruct m as [b|]; cbn [scan].
  - destruct (b && (c =? HASH)%N); constructor; apply IH.
  - destruct (c =? LF)%N; constructor; apply IH.
Qed.

Lemma Subseq_length (sub s : text) : Subseq sub s -> length sub <= length s.
Proof.
  induction 1; simpl; lia.
Qed.

Lemma scan_comment_line (body tl : text) :
  forallb (fun c => negb (c =? LF)%N) body = true ->
  scan Comment (body ++ tl) = scan Comment tl.
Proof.
  induction body as [|c body IH]; intros H; [reflexivity|].
  simpl in H. apply andb_prop in H as [Hc H].
  cbn [app scan]. apply negb_true_iff in Hc. rewrite Hc. apply IH, H.
Qed.

(** A line feed brings the scan back to code mode at a boundary,
    whatever the mode before. *)
Lemma scan_line_start (a tl : text) :
  forall m, scan m (a ++ LF :: tl) = scan m (a ++ [LF]) ++ scan (Code true) tl.
Proof.
  induction a as [|c a IH]; intros m.
  - destruct m as [b|]; cbn [app scan].
    + rewrite andb_false_r. reflexivity.
    + reflexivity.
  - destruct m as [b|]; cbn [app scan].
    + destruct (b && (c =? HASH)%N); [apply IH | cbn [app]; f_equal; apply IH].
    + destruct (c =? LF)%N; [cbn [app]; f_equal; apply IH | apply IH].
Qed.

Lemma scan_keeps_marker (mid : text) (c : char) (post : text) :
  ~ In HASH (mid ++ [c]) -> isspace c = false ->
  forall b,
    scan (Code b) (mid ++ c :: HASH :: post)
    = mid ++ c :: HASH :: scan (Code false) post.
Proof.
  induction mid as [|d mid IH]; intros Hm Hc b.
  - cbn [app]. rewrite scan_code_other.
    + rewrite Hc. reflexivity.
    + apply N.eqb_neq. intros ->. apply Hm. left. reflexivity.
  - cbn [app]. rewrite scan_code_other.
    + f_equal. apply IH; [|exact Hc].
      intros H. apply Hm. right. exact H.
    + apply N.eqb_neq. intros ->. apply Hm. left. reflexivity.
Qed.

(** ** The matcher on other patterns

    Substitution as the library performs it: an empty match is replaced
    too, also next to the match before it. *)

Example sub_star_example :
  Pattern_sub (mkPattern "a*" (MAX_REPEAT 0 (LITERAL 97%N)) "re.compile('a*')")
    [T_LITERAL (str "-")] (str "baac")
  = Ok (str "-b--c-").
Proof. reflexivity. Qed.

Example sub_empty_groups_example :
  Pattern_sub (mkPattern "()()" (SEQ (SUBPATTERN EMPTY) (SUBPATTERN EMPTY))
                 "re.compile('()()')")
    keep_both_groups (str "ab")
  = Ok (str "ab").
Proof. reflexivity. Qed.

Example sub_missing_group_example :
  Pattern_sub pattern_1 keep_both_groups (str "zzz")
  = Raise (re_error "invalid group reference").
Proof. reflexivity. Qed.

(** ** The module's operations *)

Lemma init_default_pattern :
  CommentRemover__init__ default_pattern = Ok (mkCommentRemover default_pattern).
Proof. reflexivity. Qed.

Lemma call_default_pattern (target : text) :
  CommentRemover__call__ (mkCommentRemover default_pattern) target
  = Ok (subx default_code keep_both_groups None target 0).
Proof. reflexivity. Qed.

Lemma strip_comments_subx (text0 : text) :
  strip_comments text0 = Ok (subx default_code keep_both_groups None text0 0).
Proof.
  unfold strip_comments. rewrite init_default_pattern. cbn [bind].
  apply call_default_pattern.
Qed.

Lemma strip_comments_scan (text0 : text) :
  strip_comments text0 = Ok (scan (Code true) text0).
Proof.
  rewrite strip_comments_subx, subx_default_scan. reflexivity.
Qed.

Lemma normalize_scan (lower : text -> text) (text0 : text) :
  normalize lower text0 = Ok (scan (Code true) (lower text0)).
Proof.
  unfold normalize, CombinedPreprocessor__init__.
  rewrite init_default_pattern. cbn [bind].
  unfold CombinedPreprocessor__call__. cbn [comment_remover].
  rewrite call_default_pattern, subx_default_scan. reflexivity.
Qed.

(** ** The properties of the specification *)

(** C1. Line-count preservation: for every input text, the output of
    [strip_comments] (the default [CommentRemover] applied to the text)
    has as many line terminators as the input. *)
Theorem strip_comments_preserves_line_count :
  forall text0 : text,
    exists out,
      strip_comments text0 = Ok out /\ count_lines out = count_lines text0.
Proof.
  intros text0. exists (scan (Code true) text0). split.
  - apply strip_comments_scan.
  - apply scan_count_lines.
Qed.

(** C2, as the specification states it, fails: on ["foo # bar\nbaz\n"]
    the code returns ["foo \nbaz\n"], with the blank before the marker
    still there, and not ["foo\nbaz\n"]. *)
Lemma scenario_outputs_keep_blank :
  strip_comments (unlines ["foo # bar"; "baz"]) = Ok (unlines ["foo "; "baz"])
  /\ Ok (unlines ["foo "; "baz"]) <> Ok (unlines ["foo"; "baz"]).
Proof.
  split.
  - rewrite strip_comments_scan. reflexivity.
  - intros H. discriminate H.
Qed.

(** C2, amended.  The three scenarios of the default pattern return the
    text with the white space before the marker kept (it is group 1 of
    the match): ["foo # bar\nbaz\n"] gives ["foo \nbaz\n"],
    ["  # only a comment\nkeep me\n"] gives ["  \nkeep me\n"], and
    [normalize] of ["FOO # Bar\n"] gives ["foo \n"], where [lower] is
    the string type's lower-casing, of which only its value on the
    scenario's input is used. *)
Theorem scenarios_default_pattern (lower : text -> text) :
  lower (unlines ["FOO # Bar"]) = unlines ["foo # bar"] ->
  strip_comments (unlines ["foo # bar"; "baz"]) = Ok (unlines ["foo "; "baz"])
  /\ strip_comments (unlines ["  # only a comment"; "keep me"])
     = Ok (unlines ["  "; "keep me"])
  /\ normalize lower (unlines ["FOO # Bar"]) = Ok (unlines ["foo "]).
Proof.
  intros Hlower. split; [|split].
  - rewrite strip_comments_scan. reflexivity.
  - rewrite strip_comments_scan. reflexivity.
  - rewrite normalize_scan, Hlower. reflexivity.
Qed.

Lemma scenarios_default_pattern_witness :
  map ascii_lower (unlines ["FOO # Bar"]) = unlines ["foo # bar"]
  /\ strip_comments (unlines ["foo # bar"; "baz"]) = Ok (unlines ["foo "; "baz"])
  /\ strip_comments (unlines ["  # only a comment"; "keep me"])
     = Ok (unlines ["  "; "keep me"])
  /\ normalize (map ascii_lower) (unlines ["FOO # Bar"]) = Ok (unlines ["foo "]).
Proof.
  split; [reflexivity|].
  apply (scenarios_default_pattern (map ascii_lower)). reflexivity.
Defined.

(** C3. [strip_comments] replaces every match of the pattern by the
    concatenation of its two groups.  For the default pattern, at every
    position of the scan: when the pattern matches, the match is a run
    of white space [w] (possibly empty) directly before the marker, the
    marker, and the comment [body] up to the line terminator, which the
    match leaves in the subject; group 1 is [w], group 2 is the empty
    text at the end of the line, the match is replaced by [w], and the
    scan goes on behind the match; when it does not match, one
    character is copied.  So a leading comment line loses the marker
    and the body and keeps the white space before them. *)
Theorem default_match_replaced_by_groups :
  forall text0 : text,
    strip_comments text0 = Ok (subx default_code keep_both_groups None text0 0)
    /\ (forall (p : option char) (s : text),
          match attempt default_code p s false with
          | Some st =>
              exists w body,
                s = w ++ HASH :: body ++ rest st
                /\ forallb isspace w = true
                /\ forallb (fun c => negb (c =? LF)%N) body = true
                /\ at_end_line st = true
                /\ group 1 (marks st) = w
                /\ group 2 (marks st) = []
                /\ subx default_code keep_both_groups p s 0
                   = (group 1 (marks st) ++ group 2 (marks st))
                     ++ subx default_code keep_both_groups (prev st) (rest st) 0
          | None =>
              subx default_code keep_both_groups p s 0
              = match s with
                | [] => []
                | c :: tl => c :: subx default_code keep_both_groups (Some c) tl 0
                end
          end)
    /\ (forall (w body tl : text) (out : text),
          forallb isspace w = true ->
          forallb (fun c => negb (c =? LF)%N) body = true ->
          strip_comments (LF :: tl) = Ok out ->
          strip_comments (w ++ HASH :: body ++ LF :: tl) = Ok (w ++ out))
    /\ (forall w body : text,
          forallb isspace w = true ->
          forallb (fun c => negb (c =? LF)%N) body = true ->
          strip_comments (w ++ HASH :: body) = Ok w).
Proof.
  intros text0. split; [apply strip_comments_subx|]. split; [|split].
  - intros p s. rewrite subx_default_unfold, attempt_default.
    destruct (default_attempt p s) as [st|] eqn:Ea; [|reflexivity].
    destruct (default_attempt_shape _ _ Ea) as (w & x & Hs & Hst & Hw & _).
    exists w, (line x). subst st. unfold comment_at. cbn [rest marks prev].
    cbn [group Nat.eqb]. rewrite app_nil_r.
    split; [rewrite <- line_after_line; exact Hs|].
    split; [exact Hw|].
    split; [apply line_no_LF|].
    split; [apply at_end_line_after_line|].
    split; [reflexivity|]. split; reflexivity.
  - intros w body tl out Hw Hbody. rewrite !strip_comments_scan.
    intros [= <-]. f_equal.
    rewrite scan_spaces_marker by (auto || exact Hw).
    rewrite scan_comment_line by exact Hbody.
    rewrite (scan_comment_after_line true). reflexivity.
  - intros w body Hw Hbody. rewrite strip_comments_scan. f_equal.
    rewrite scan_spaces_marker by (auto || exact Hw).
    rewrite <- (app_nil_r body), scan_comment_line by exact Hbody.
    apply app_nil_r.
Qed.

Lemma default_match_replaced_by_groups_witness :
  strip_comments (unlines [" # x"; "y"]) = Ok (str " " ++ unlines [""; "y"]).
Proof.
  apply (proj1 (proj2 (proj2 (default_match_replaced_by_groups []))) (str " ")
           (str " x") (unlines ["y"]) (unlines [""; "y"])); reflexivity.
Defined.

(** C4. Construction validation: when the compiled pattern does not
    have exactly two capture groups, the constructor raises the
    module's configuration error (a [ValueError]) whose message states
    the two-group contract, the number of groups found and the
    pattern's [repr]; with exactly two groups it returns the instance
    and raises nothing. *)
Theorem init_validates_group_count (compiled : Pattern) :
  (Pattern_groups compiled <> 2 ->
   exists msg,
     CommentRemover__init__ compiled = Raise (ValueError msg)
     /\ occurs_in "must have exactly two capture groups" msg
     /\ occurs_in ("Your pattern has " ++ format_nat (Pattern_groups compiled)
                   ++ " instead of 2 groups")%string msg
     /\ occurs_in (pattern_repr compiled) msg)
  /\ (Pattern_groups compiled = 2 ->
      CommentRemover__init__ compiled = Ok (mkCommentRemover compiled)).
Proof.
  unfold CommentRemover__init__. split; intros H.
  - apply Nat.eqb_neq in H. rewrite H. cbn [negb].
    exists (groups_message compiled). split; [reflexivity|].
    unfold groups_message, contract_message. split; [|split].
    + exists "A comment remover regex pattern ".
      eexists. cbn [String.append]. reflexivity.
    + exists contract_message.
      exists (" and looks like " ++ pattern_repr compiled)%string.
      rewrite !string_append_assoc. reflexivity.
    + exists (contract_message ++ "Your pattern has "
              ++ format_nat (Pattern_groups compiled)
              ++ " instead of 2 groups and looks like ")%string.
      exists "". rewrite string_append_nil_r.
      rewrite !string_append_assoc. reflexivity.
  - rewrite H. reflexivity.
Qed.

Lemma init_validates_group_count_witness :
  (exists msg, CommentRemover__init__ pattern_0 = Raise (ValueError msg)
               /\ occurs_in "Your pattern has 0 instead of 2 groups" msg)
  /\ (exists msg, CommentRemover__init__ pattern_1 = Raise (ValueError msg)
                  /\ occurs_in "Your pattern has 1 instead of 2 groups" msg)
  /\ (exists msg, CommentRemover__init__ pattern_3 = Raise (ValueError msg)
                  /\ occurs_in "Your pattern has 3 instead of 2 groups" msg)
  /\ CommentRemover__init__ pattern_2 = Ok (mkCommentRemover pattern_2)
  /\ CommentRemover__init__ default_pattern = Ok (mkCommentRemover default_pattern).
Proof.
  assert (Hraise : forall compiled, Pattern_groups compiled <> 2 ->
            exists msg, CommentRemover__init__ compiled = Raise (ValueError msg)
              /\ occurs_in ("Your pattern has " ++ format_nat (Pattern_groups compiled)
                            ++ " instead of 2 groups")%string msg).
  { intros compiled H.
    destruct (proj1 (init_validates_group_count compiled) H)
      as (msg & Hr & _ & Hn & _).
    exists msg. split; assumption. }
  split; [apply (Hraise pattern_0); discriminate|].
  split; [apply (Hraise pattern_1); discriminate|].
  split; [apply (Hraise pattern_3); discriminate|].
  split; [apply (proj2 (init_validates_group_count pattern_2)); reflexivity|].
  apply (proj2 (init_validates_group_count default_pattern)); reflexivity.
Defined.

(** C5. Composition order: for every input text, [normalize] is
    [strip_comments] applied to the lower-cased text; the whole input
    is lower-cased first and the default comment remover runs on the
    result. *)
Theorem normalize_is_strip_after_lower (lower : text -> text) :
  forall text0 : text, normalize lower text0 = strip_comments (lower text0).
Proof.
  intros text0. unfold normalize, strip_comments, CombinedPreprocessor__init__.
  destruct (CommentRemover__init__ default_pattern) as [cr|e]; reflexivity.
Qed.

(** C6. Idempotence: stripping the output of [strip_comments] once more
    returns it unchanged, for every input text. *)
Theorem strip_comments_idempotent :
  forall text0 : text,
    (out <- strip_comments text0 ;; strip_comments out) = strip_comments text0.
Proof.
  intros text0. rewrite strip_comments_scan. cbn [bind].
  rewrite strip_comments_scan.
  rewrite (scan_idempotent text0 (Code true) true). reflexivity.
Qed.

(** C7. No-op on comment-free input: a text in which the marker [#]
    does not occur is returned as it is. *)
Theorem strip_comments_without_marker (text0 : text) :
  ~ In HASH text0 -> strip_comments text0 = Ok text0.
Proof.
  intros H. rewrite strip_comments_scan, scan_no_marker by exact H.
  reflexivity.
Qed.

Lemma strip_comments_without_marker_witness :
  strip_comments (unlines ["no comments here"]) = Ok (unlines ["no comments here"]).
Proof.
  apply strip_comments_without_marker.
  simpl. intros H.
  repeat (destruct H as [H|H]; [discriminate H|]). exact H.
Defined.

(** C8. Totality of invocation: a comment remover that was constructed
    successfully, with whatever pattern, returns a text for every
    input and raises nothing; so do [strip_comments] and [normalize];
    and [strip_comments] of the empty text is the empty text. *)
Theorem invocation_never_raises (compiled : Pattern) (cr : CommentRemover) :
  CommentRemover__init__ compiled = Ok cr ->
  (forall target : text, exists out, CommentRemover__call__ cr target = Ok out)
  /\ (forall text0 : text, exists out, strip_comments text0 = Ok out)
  /\ (forall (lower : text -> text) (text0 : text),
        exists out, normalize lower text0 = Ok out)
  /\ strip_comments [] = Ok [].
Proof.
  intros Hinit. split; [|split; [|split]].
  - intros target. unfold CommentRemover__init__ in Hinit.
    destruct (Nat.eqb (Pattern_groups compiled) 2) eqn:Hg; [|discriminate].
    cbn [negb] in Hinit. injection Hinit as <-.
    unfold CommentRemover__call__, Pattern_sub. cbn [pattern].
    apply Nat.eqb_eq in Hg. rewrite Hg.
    eexists. reflexivity.
  - intros text0. eexists. apply strip_comments_scan.
  - intros lower text0. eexists. apply normalize_scan.
  - rewrite strip_comments_scan. reflexivity.
Qed.

Lemma invocation_never_raises_witness :
  CommentRemover__init__ pattern_2 = Ok (mkCommentRemover pattern_2)
  /\ CommentRemover__call__ (mkCommentRemover pattern_2) (str "xaby") = Ok (str "xaby")
  /\ strip_comments [] = Ok [].
Proof.
  split; [reflexivity|].
  pose proof (invocation_never_raises pattern_2 eq_refl) as (Hcall & _ & _ & Hempty).
  split; [|exact Hempty].
  destruct (Hcall (str "xaby")) as (out & Hout).
  rewrite Hout. revert Hout. vm_compute. intros H. exact (eq_sym H).
Defined.

(** C9, as stated, fails: in ["#a#b\n"] the second marker follows the
    letter [a], yet it lies in the comment that the first marker opens
    and is removed with it; the output is ["\n"]. *)
Lemma marker_inside_comment_removed :
  isspace 97%N = false
  /\ strip_comments (unlines ["#a#b"]) = Ok (unlines [""])
  /\ ~ marker_after_nonspace_kept.
Proof.
  split; [reflexivity|]. split; [rewrite strip_comments_scan; reflexivity|].
  intros H.
  destruct (H [HASH] 97%N (str "b" ++ [LF]) eq_refl) as (o1 & o2 & Ho).
  rewrite strip_comments_scan in Ho.
  assert (Hout : [LF] = o1 ++ 97%N :: HASH :: o2) by (injection Ho as Ho; exact Ho).
  assert (Hin : In HASH [LF]).
  { rewrite Hout. apply in_or_app. right. right. left. reflexivity. }
  destruct Hin as [Hin|[]]. discriminate Hin.
Qed.

(** C10. Only deletions: the output of [strip_comments] is a
    subsequence of the input, so it is not longer than the input; and
    the output of [normalize] is a subsequence of the lower-cased
    input. *)
Theorem strip_comments_only_deletes :
  (forall text0 : text,
     exists out,
       strip_comments text0 = Ok out
       /\ Subseq out text0 /\ length out <= length text0)
  /\ (forall (lower : text -> text) (text0 : text),
        exists out,
          normalize lower text0 = Ok out /\ Subseq out (lower text0)).
Proof.
  split.
  - intros text0. exists (scan (Code true) text0).
    split; [apply strip_comments_scan|].
    split; [apply scan_subseq | apply Subseq_length, scan_subseq].
  - intros lower text0. exists (scan (Code true) (lower text0)).
    split; [apply normalize_scan | apply scan_subseq].
Qed.

(** * Further properties of the module *)

(** ** More about the scan *)

Lemma scan_snoc_LF (a : text) :
  forall m, scan m (a ++ [LF]) = scan m a ++ [LF].
Proof.
  induction a as [|c a IH]; intros m.
  - destruct m as [b|]; cbn [app scan]; [rewrite andb_false_r|]; reflexivity.
  - destruct m as [b|]; cbn [app scan].
    + destruct (b && (c =? HASH)%N); [apply IH | cbn [app]; f_equal; apply IH].
    + destruct (c =? LF)%N; [cbn [app]; f_equal; apply IH | apply IH].
Qed.

Lemma scan_split_line (a b : text) :
  scan (Code true) (a ++ LF :: b)
  = scan (Code true) a ++ LF :: scan (Code true) b.
Proof.
  rewrite scan_line_start, scan_snoc_LF, <- app_assoc. reflexivity.
Qed.

Lemma one_line_tail (c : char) (l : text) :
  one_line (c :: l) -> (c =? LF)%N = false /\ one_line l.
Proof.
  unfold one_line. intros H. split.
  - apply N.eqb_neq. intros ->. apply H. left. reflexivity.
  - intros Hl. apply H. right. exact Hl.
Qed.

Lemma scan_comment_one_line (l : text) :
  one_line l -> scan Comment l = [].
Proof.
  induction l as [|c l IH]; intros H; [reflexivity|].
  apply one_line_tail in H as [Hc H]. cbn [scan]. rewrite Hc. apply IH, H.
Qed.

Lemma scan_one_line_prefix (l : text) :
  one_line l -> forall b, prefix_of (scan (Code b) l) l.
Proof.
  induction l as [|c l IH]; intros H b; [exists []; reflexivity|].
  apply one_line_tail in H as [Hc H]. cbn [scan].
  destruct (b && (c =? HASH)%N).
  - rewrite scan_comment_one_line by exact H. exists (c :: l). reflexivity.
  - destruct (IH H (isspace c)) as [d Hd]. exists d. cbn [app]. f_equal. exact Hd.
Qed.

Lemma scan_join_lines (ls : list text) :
  scan (Code true) (join_lines ls) = join_lines (map (scan (Code true)) ls).
Proof.
  induction ls as [|l tl IH]; [reflexivity|].
  destruct tl as [|l2 tl]; [reflexivity|].
  change (join_lines (l :: l2 :: tl)) with (l ++ LF :: join_lines (l2 :: tl)).
  rewrite scan_split_line, IH. reflexivity.
Qed.

Lemma boundary_after_snoc (a : text) (c : char) :
  forall b, boundary_after b (a ++ [c]) = isspace c.
Proof.
  induction a as [|d a IH]; intros b; [reflexivity | apply IH].
Qed.

Lemma boundary_after_false (a : text) :
  boundary_after true a = false <->
  exists a' c, a = a' ++ [c] /\ isspace c = false.
Proof.
  split.
  - intros H. destruct a as [|d a]; [discriminate H|].
    destruct (@exists_last _ (d :: a)) as (a' & c & Ha); [discriminate|].
    rewrite Ha in *. rewrite boundary_after_snoc in H. exists a', c. auto.
  - intros (a' & c & -> & Hc). rewrite boundary_after_snoc. exact Hc.
Qed.

Lemma comment_free_spec (s : text) :
  forall b,
    comment_free b s = true <->
    (forall a x, s = a ++ HASH :: x -> boundary_after b a = false).
Proof.
  induction s as [|c tl IH]; intros b.
  - split; [|reflexivity]. intros _ a x H. destruct a; discriminate H.
  - cbn [comment_free]. rewrite andb_true_iff, negb_true_iff, IH. split.
    + intros [Hc Htl] a x Hs. destruct a as [|d a].
      * cbn [app] in Hs. injection Hs as Hd _. subst c.
        rewrite N.eqb_refl, andb_true_r in Hc. exact Hc.
      * cbn [app] in Hs. injection Hs as Hd Hs. subst d.
        cbn [boundary_after]. apply (Htl a x Hs).
    + intros H. split.
      * destruct (c =? HASH)%N eqn:E; [|apply andb_false_r].
        apply N.eqb_eq in E. subst c. rewrite andb_true_r.
        apply (H [] tl eq_refl).
      * intros a x Hs. apply (H (c :: a) x). cbn [app]. f_equal. exact Hs.
Qed.

Lemma comment_free_markers (t : text) :
  comment_free true t = true <-> markers_follow_nonspace t.
Proof.
  rewrite comment_free_spec. unfold markers_follow_nonspace.
  split; intros H a x Hs; apply boundary_after_false, (H a x Hs).
Qed.

Lemma comment_free_scan (s : text) :
  forall m b',
    comment_free (match m with Code b => b | Comment => b' end) (scan m s) = true.
Proof.
  induction s as [|c tl IH]; intros m b'; [destruct m; reflexivity|].
  destruct m as [b|]; cbn [scan].
  - destruct (b && (c =? HASH)%N) eqn:E.
    + apply (IH Comment b).
    + cbn [comment_free]. rewrite E. apply (IH (Code (isspace c)) true).
  - destruct (c =? LF)%N eqn:E.
    + apply N.eqb_eq in E. subst c. cbn [comment_free].
      replace (LF =? HASH)%N with false by reflexivity.
      rewrite andb_false_r. apply (IH (Code true) true).
    + apply (IH Comment b').
Qed.

Lemma scan_fixed_point (s : text) :
  forall b, comment_free b s = true -> scan (Code b) s = s.
Proof.
  induction s as [|c tl IH]; intros b H; [reflexivity|].
  cbn [comment_free] in H. apply andb_prop in H as [Hc H].
  apply negb_true_iff in Hc. cbn [scan]. rewrite Hc.
  f_equal. apply IH, H.
Qed.

Lemma scan_map (f : char -> char) :
  class_preserving f ->
  forall s m, scan m (map f s) = map f (scan m s).
Proof.
  intros Hf s. induction s as [|c tl IH]; intros m; [destruct m; reflexivity|].
  destruct (Hf c) as (Hh & Hl & Hs).
  destruct m as [b|]; cbn [map scan].
  - rewrite Hh, Hs. destruct (b && (c =? HASH)%N); [apply IH|].
    cbn [map]. f_equal. apply IH.
  - rewrite Hl. destruct (c =? LF)%N; [cbn [map]; f_equal|]; apply IH.
Qed.

Lemma map_idempotent (f : char -> char) (s : text) :
  (forall c, f (f c) = f c) -> map f (map f s) = map f s.
Proof.
  intros Hf. rewrite map_map. apply map_ext. exact Hf.
Qed.

Lemma ascii_lower_class_preserving : class_preserving ascii_lower.
Proof.
  intros c. unfold ascii_lower.
  destruct ((65 <=? c) && (c <=? 90))%N eqn:E; [|auto].
  apply andb_prop in E as [E1 E2].
  apply N.leb_le in E1. apply N.leb_le in E2.
  assert (Hns : forall d : char, (65 <= d <= 122)%N -> isspace d = false).
  { intros d Hd. unfold isspace.
    repeat match goal with
    | |- context [(?a <=? ?b)%N] =>
        destruct (N.leb_spec a b); try lia; cbn [andb orb]
    | |- context [(?a =? ?b)%N] =>
        destruct (N.eqb_spec a b); try lia; cbn [andb orb]
    end; reflexivity. }
  split; [|split].
  - transitivity false; [|symmetry]; apply N.eqb_neq; unfold HASH; lia.
  - transitivity false; [|symmetry]; apply N.eqb_neq; unfold LF; lia.
  - rewrite !Hns by lia. reflexivity.
Qed.

Lemma ascii_lower_idempotent (c : char) : ascii_lower (ascii_lower c) = ascii_lower c.
Proof.
  unfold ascii_lower.
  destruct ((65 <=? c) && (c <=? 90))%N eqn:E; [|rewrite E; reflexivity].
  apply andb_prop in E as [E1 E2]. apply N.leb_le in E1. apply N.leb_le in E2.
  replace ((c + 32 <=? 90))%N with false by (symmetry; apply N.leb_gt; lia).
  rewrite andb_false_r. reflexivity.
Qed.

(** Where the pattern matches nowhere, substitution copies the subject. *)
Lemma subx_no_match (r : regex) (tpl : template) (s : text) :
  forall p, no_match_anywhere r p s -> subx r tpl p s 0 = s.
Proof.
  induction s as [|c tl IH]; intros p H.
  - pose proof (H 0 (Nat.le_refl _)) as H0. cbn [prev_at skipn] in H0.
    cbn [subx]. rewrite H0. reflexivity.
  - pose proof (H 0 (Nat.le_0_l _)) as H0. cbn [prev_at skipn] in H0.
    cbn [subx]. rewrite H0. f_equal. apply IH.
    intros n Hn. apply (H (S n)). simpl. lia.
Qed.

(** ** Comment removal works line by line *)

(** X1. Stripping distributes over a line feed: the text before the
    line feed and the text after it are stripped independently and the
    line feed stays between the two results.  A comment never reaches
    into the next line and the white space that group 1 captures across
    a line feed is all put back. *)
Theorem strip_comments_splits_at_line_feed :
  forall a b : text,
    strip_comments (a ++ LF :: b)
    = (oa <- strip_comments a ;; ob <- strip_comments b ;; Ok (oa ++ LF :: ob)).
Proof.
  intros a b. rewrite !strip_comments_scan. cbn [bind].
  rewrite scan_split_line. reflexivity.
Qed.

(** X2. Line [k] of the output is a prefix of line [k] of the input:
    for lines without line feeds, joined by line feeds, the output is
    the join of as many lines, each of them the beginning of the
    input's line at the same place. *)
Theorem strip_comments_truncates_lines (ls : list text) :
  Forall one_line ls ->
  exists outs,
    strip_comments (join_lines ls) = Ok (join_lines outs)
    /\ Forall2 prefix_of outs ls
    /\ Forall one_line outs.
Proof.
  intros Hls. exists (map (scan (Code true)) ls).
  split; [rewrite strip_comments_scan, scan_join_lines; reflexivity|].
  induction Hls as [|l tl Hl Htl [IH1 IH2]]; [split; constructor|].
  pose proof (scan_one_line_prefix Hl true) as Hp.
  split; cbn [map]; constructor; auto.
  destruct Hp as [d Hd]. unfold one_line in *. intros Hin.
  apply Hl. rewrite Hd. apply in_or_app. left. exact Hin.
Qed.

Lemma strip_comments_truncates_lines_witness :
  exists outs,
    strip_comments (join_lines [str "a # b"; str "# c"; str "d#e"])
    = Ok (join_lines outs)
    /\ Forall2 prefix_of outs [str "a # b"; str "# c"; str "d#e"]
    /\ Forall one_line outs.
Proof.
  apply strip_comments_truncates_lines.
  repeat constructor; unfold one_line; simpl; intros H;
    repeat (destruct H as [H|H]; [discriminate H|]); exact H.
Defined.

(** ** What is left after stripping *)

(** X3. The output holds no comment any more: every marker that is
    left in it directly follows a character which is not white space,
    so none stands at the start of the output, at the start of a line
    or after white space. *)
Theorem strip_comments_leaves_no_comment :
  forall text0 : text,
    exists out,
      strip_comments text0 = Ok out /\ markers_follow_nonspace out.
Proof.
  intros text0. exists (scan (Code true) text0).
  split; [apply strip_comments_scan|].
  apply comment_free_markers. apply (comment_free_scan text0 (Code true) true).
Qed.

(** X4. The texts that stripping returns unchanged are exactly those in
    which every marker directly follows a character that is not white
    space. *)
Theorem strip_comments_unchanged_iff :
  forall text0 : text,
    strip_comments text0 = Ok text0 <-> markers_follow_nonspace text0.
Proof.
  intros text0. rewrite strip_comments_scan, <- comment_free_markers. split.
  - intros H. injection H as H. rewrite <- H.
    apply (comment_free_scan text0 (Code true) true).
  - intros H. f_equal. apply scan_fixed_point, H.
Qed.

(** ** Lower-casing and stripping *)

(** X5. For the default pattern the order of the two steps does not show
    in the result: when the lower-casing maps the text character by
    character and leaves the marker, the line feed and the white space
    class alone, lower-casing the stripped text gives what
    [CombinedPreprocessor] returns. *)
Theorem normalize_commutes_with_lower (f : char -> char) :
  class_preserving f ->
  forall text0 : text,
    normalize (map f) text0
    = (out <- strip_comments text0 ;; Ok (map f out)).
Proof.
  intros Hf text0. rewrite normalize_scan, strip_comments_scan. cbn [bind].
  rewrite scan_map by exact Hf. reflexivity.
Qed.

Lemma normalize_commutes_with_lower_witness :
  normalize (map ascii_lower) (unlines ["Foo # Bar"; "# X"; "A#B"])
  = (out <- strip_comments (unlines ["Foo # Bar"; "# X"; "A#B"]) ;;
     Ok (map ascii_lower out)).
Proof.
  apply (normalize_commutes_with_lower ascii_lower_class_preserving).
Defined.

(** X6. [CombinedPreprocessor] is idempotent under such a lower-casing
    that is itself idempotent: preprocessing its own output returns
    that output. *)
Theorem normalize_idempotent (f : char -> char) :
  class_preserving f ->
  (forall c, f (f c) = f c) ->
  forall text0 : text,
    (out <- normalize (map f) text0 ;; normalize (map f) out)
    = normalize (map f) text0.
Proof.
  intros Hf Hi text0. rewrite normalize_scan. cbn [bind].
  rewrite normalize_scan. f_equal.
  rewrite !scan_map by exact Hf.
  rewrite (scan_idempotent text0 (Code true) true).
  apply map_idempotent, Hi.
Qed.

Lemma normalize_idempotent_witness :
  (out <- normalize (map ascii_lower) (unlines ["Foo # Bar"; "A#B"]) ;;
   normalize (map ascii_lower) out)
  = normalize (map ascii_lower) (unlines ["Foo # Bar"; "A#B"]).
Proof.
  apply (normalize_idempotent ascii_lower_class_preserving ascii_lower_idempotent).
Defined.

(** X7. [CombinedPreprocessor] keeps the number of line feeds of its
    input whenever the lower-casing does. *)
Theorem normalize_preserves_line_count (lower : text -> text) (text0 : text) :
  count_lines (lower text0) = count_lines text0 ->
  exists out,
    normalize lower text0 = Ok out /\ count_lines out = count_lines text0.
Proof.
  intros H. exists (scan (Code true) (lower text0)).
  split; [apply normalize_scan|].
  rewrite scan_count_lines. exact H.
Qed.

Lemma normalize_preserves_line_count_witness :
  exists out,
    normalize (map ascii_lower) (unlines ["Foo # Bar"; "Baz"]) = Ok out
    /\ count_lines out = count_lines (unlines ["Foo # Bar"; "Baz"]).
Proof.
  apply normalize_preserves_line_count. reflexivity.
Defined.

(** ** Removers with a pattern of their own *)

(** X8. A remover built from any accepted pattern returns its target
    unchanged when the pattern matches at no position of the target. *)
Theorem call_without_match_is_identity (compiled : Pattern)
    (cr : CommentRemover) (target : text) :
  CommentRemover__init__ compiled = Ok cr ->
  no_match_anywhere (code compiled) None target ->
  CommentRemover__call__ cr target = Ok target.
Proof.
  intros Hinit Hno. unfold CommentRemover__init__ in Hinit.
  destruct (Nat.eqb (Pattern_groups compiled) 2) eqn:Hg; [|discriminate].
  cbn [negb] in Hinit. injection Hinit as <-.
  unfold CommentRemover__call__, Pattern_sub. cbn [pattern].
  apply Nat.eqb_eq in Hg. rewrite Hg. cbn [forallb keep_both_groups valid_ref Nat.leb andb].
  f_equal. apply subx_no_match, Hno.
Qed.

Lemma call_without_match_is_identity_witness :
  CommentRemover__call__ (mkCommentRemover pattern_2) (str "ba")
  = Ok (str "ba").
Proof.
  apply (@call_without_match_is_identity pattern_2); [reflexivity|].
  intros n Hn.
  destruct n as [|[|[|n]]]; [reflexivity | reflexivity | reflexivity |].
  simpl in Hn. lia.
Defined.

(** ** Markers that follow a character which is not white space *)

Lemma scan_at_line_start (pre s : text) :
  line_start pre ->
  scan (Code true) (pre ++ s) = scan (Code true) pre ++ scan (Code true) s.
Proof.
  intros [-> | (pre' & ->)]; [reflexivity|].
  rewrite <- app_assoc. cbn [app]. apply scan_line_start.
Qed.

(** A stretch of text without a comment start is copied, and the scan
    leaves it in code mode. *)
Lemma scan_comment_free_app (l s : text) :
  forall b, comment_free b l = true ->
    scan (Code b) (l ++ s) = l ++ scan (Code (boundary_after b l)) s.
Proof.
  induction l as [|c l IH]; intros b H; [reflexivity|].
  cbn [comment_free] in H. apply andb_prop in H as [Hc H].
  apply negb_true_iff in Hc. cbn [app scan boundary_after]. rewrite Hc.
  f_equal. apply IH, H.
Qed.

Lemma scan_comment_app_one_line (l s : text) :
  one_line l -> scan Comment (l ++ s) = scan Comment s.
Proof.
  induction l as [|c l IH]; intros H; [reflexivity|].
  apply one_line_tail in H as [Hc H]. cbn [app scan]. rewrite Hc. apply IH, H.
Qed.

(** A line with a comment start is cut there, and the scan leaves it in
    comment mode. *)
Lemma scan_commented_line_app (l s : text) :
  one_line l ->
  forall b, comment_free b l = false ->
    exists kept dropped,
      l = kept ++ dropped /\ dropped <> []
      /\ scan (Code b) l = kept
      /\ scan (Code b) (l ++ s) = kept ++ scan Comment s.
Proof.
  induction l as [|c l IH]; intros Hl b H; [discriminate H|].
  apply one_line_tail in Hl as [Hc Hl]. cbn [comment_free] in H.
  destruct (b && (c =? HASH)%N) eqn:E.
  - exists [], (c :: l). cbn [app scan]. rewrite E.
    split; [reflexivity|]. split; [discriminate|].
    split; [apply scan_comment_one_line, Hl | apply scan_comment_app_one_line, Hl].
  - cbn [negb andb] in H.
    destruct (IH Hl (isspace c) H) as (kept & dropped & Hk & Hd & Hs1 & Hs2).
    exists (c :: kept), dropped. cbn [app scan]. rewrite E.
    split; [f_equal; exact Hk|]. split; [exact Hd|].
    split; f_equal; assumption.
Qed.

(** C9, amended.  With the default pattern a marker that directly
    follows a character which is not white space does not begin a
    comment: the pattern does not match at it, and every match of the
    pattern is a run of white space (empty only at the start of a
    line), a marker and the rest of the line up to its line terminator.
    Such a marker is removed exactly when it lies in a comment that
    began earlier on its line: it is kept when the text from a line
    start up to it holds no comment start, and it is removed, with the
    rest of its line, when the part of its line before it holds one.
    So ["a#b\n"] and ["a#b#c\n"] are returned unchanged and ["#a#b\n"]
    gives ["\n"].  Every marker that survives in the output follows a
    character which is not white space. *)
Theorem marker_after_nonspace :
  (strip_comments (unlines ["a#b"]) = Ok (unlines ["a#b"])
   /\ strip_comments (unlines ["a#b#c"]) = Ok (unlines ["a#b#c"])
   /\ strip_comments (unlines ["#a#b"]) = Ok (unlines [""]))
  /\ (forall (c : char) (post : text) (must_advance : bool),
        isspace c = false ->
        attempt default_code (Some c) (HASH :: post) must_advance = None)
  /\ (forall (p : option char) (s : text) (must_advance : bool) (st : state),
        attempt default_code p s must_advance = Some st ->
        exists w body,
          s = w ++ HASH :: body ++ rest st
          /\ forallb isspace w = true
          /\ (w = [] -> boundary_line p = true)
          /\ forallb (fun c => negb (c =? LF)%N) body = true
          /\ at_end_line st = true)
  /\ (forall (pre before : text) (c : char) (post out_pre : text),
        line_start pre ->
        isspace c = false ->
        markers_follow_nonspace (before ++ [c]) ->
        strip_comments pre = Ok out_pre ->
        exists out_post,
          strip_comments (pre ++ (before ++ [c]) ++ HASH :: post)
          = Ok (out_pre ++ (before ++ [c]) ++ HASH :: out_post))
  /\ (forall (pre before : text) (c : char) (post out_pre out_rest : text),
        line_start pre ->
        one_line (before ++ [c]) ->
        ~ markers_follow_nonspace (before ++ [c]) ->
        strip_comments pre = Ok out_pre ->
        strip_comments (after_line post) = Ok out_rest ->
        exists kept dropped,
          before ++ [c] = kept ++ dropped /\ dropped <> []
          /\ strip_comments (before ++ [c]) = Ok kept
          /\ strip_comments (pre ++ (before ++ [c]) ++ HASH :: post)
             = Ok (out_pre ++ kept ++ out_rest))
  /\ (forall text0 : text,
        exists out,
          strip_comments text0 = Ok out /\ markers_follow_nonspace out).
Proof.
  split; [split; [|split]; rewrite strip_comments_scan; reflexivity|].
  split; [|split; [|split; [|split]]].
  - intros c post ma Hc. rewrite attempt_default. unfold default_attempt.
    assert (Hb : boundary_line (Some c) = false).
    { simpl. apply N.eqb_neq. intros ->. discriminate Hc. }
    rewrite Hb. reflexivity.
  - intros p s ma st Ha. rewrite attempt_default in Ha.
    destruct (default_attempt_shape _ _ Ha) as (w & x & Hs & Hst & Hw & Hp).
    exists w, (line x). subst st. unfold comment_at. cbn [rest].
    split; [rewrite <- line_after_line; exact Hs|].
    split; [exact Hw|]. split; [exact Hp|].
    split; [apply line_no_LF | apply at_end_line_after_line].
  - intros pre before c post out_pre Hpre Hc Hm.
    rewrite !strip_comments_scan. intros [= <-].
    exists (scan (Code false) post). f_equal.
    apply comment_free_markers in Hm.
    rewrite scan_at_line_start by exact Hpre.
    rewrite scan_comment_free_app by exact Hm.
    rewrite boundary_after_snoc, Hc. reflexivity.
  - intros pre before c post out_pre out_rest Hpre Hl Hm.
    rewrite !strip_comments_scan. intros [= <-] [= <-].
    assert (Hf : comment_free true (before ++ [c]) = false).
    { destruct (comment_free true (before ++ [c])) eqn:E; [|reflexivity].
      exfalso. apply Hm, comment_free_markers, E. }
    destruct (scan_commented_line_app (HASH :: post) Hl true Hf)
      as (kept & dropped & Hk & Hd & Hs1 & Hs2).
    exists kept, dropped.
    split; [exact Hk|]. split; [exact Hd|].
    split; [rewrite Hs1; reflexivity|].
    f_equal.
    rewrite scan_at_line_start by exact Hpre.
    rewrite Hs2. cbn [scan]. replace (HASH =? LF)%N with false by reflexivity.
    rewrite (scan_comment_after_line true). reflexivity.
  - intros text0. exists (scan (Code true) text0).
    split; [apply strip_comments_scan|].
    apply comment_free_markers, (comment_free_scan text0 (Code true) true).
Qed.

Lemma marker_after_nonspace_witness :
  attempt default_code (Some 98%N) (HASH :: unlines ["c"]) false = None
  /\ (exists out_post,
        strip_comments (unlines ["# x"] ++ (str "a#" ++ [98%N]) ++ HASH :: unlines ["c"])
        = Ok (unlines [""] ++ (str "a#" ++ [98%N]) ++ HASH :: out_post))
  /\ (exists kept dropped,
        str "x #" ++ [97%N] = kept ++ dropped /\ dropped <> []
        /\ strip_comments (str "x #" ++ [97%N]) = Ok kept
        /\ strip_comments (unlines ["k"] ++ (str "x #" ++ [97%N]) ++ HASH :: unlines ["b"; "y"])
           = Ok (unlines ["k"] ++ kept ++ unlines [""; "y"])).
Proof.
  destruct marker_after_nonspace as (_ & Hno & _ & Hkeep & Hdrop & _).
  split; [apply Hno; reflexivity|]. split.
  - apply (Hkeep (unlines ["# x"]) (str "a#") 98%N (unlines ["c"]) (unlines [""])).
    + right. exists (str "# x"). reflexivity.
    + reflexivity.
    + apply comment_free_markers. reflexivity.
    + vm_compute. reflexivity.
  - apply (Hdrop (unlines ["k"]) (str "x #") 97%N (unlines ["b"; "y"])
             (unlines ["k"]) (unlines [""; "y"])).
    + right. exists (str "k"). reflexivity.
    + unfold one_line. simpl. intros H.
      repeat (destruct H as [H|H]; [discriminate H|]). exact H.
    + intros H. apply comment_free_markers in H. discriminate H.
    + vm_compute. reflexivity.
    + vm_compute. reflexivity.
Defined.
